(** * Kuhn poker engine: a shallow embedding of [src/pgx/kuhn_poker.py]

    The engine consists of three pure functions over an immutable [State]
    record: [_init] deals the cards and picks who moves first, [_step]
    applies one action, [_observe] projects a state to the view of one
    player.  The development follows the source function by function.

    Numbers.  [jnp.int8] values are integers [Z] with the wrap-around of the
    cast written out ([Jnp.int8]).  The [float32] rewards only ever hold the
    values -2, -1, 0, 1, 2, on which the operations of the source
    (a store, a product by 2) are exact, so they are integers [Z] here.

    Arrays.  The two-slot arrays ([_cards], [_pot], [rewards]) are pairs, the
    mask and the observation are lists.  Indexing follows [jax.numpy]: a
    negative index counts from the end, a read out of bounds is clamped to the
    nearest slot, an update out of bounds is dropped. *)

From Stdlib Require Import ZArith List Bool Lia.
Import ListNotations.
Open Scope Z_scope.

(** ** The fragment of [jax.numpy] / [jax.lax] used by the engine *)

Module Jnp.

(** [jnp.int8(z)]: two's complement wrap-around into [-128, 127]. *)
Definition int8 (z : Z) : Z := (z + 128) mod 256 - 128.

(** An index [i] into an axis of size [n], negative indices counted from
    the end. *)
Definition norm (n i : Z) : Z := if i <? 0 then i + n else i.

(** [v[i]] on a two-slot array (clamped read). *)
Definition get2 {A : Type} (v : A * A) (i : Z) : A :=
  if norm 2 i <=? 0 then fst v else snd v.

(** [v.at[i].set(x)] on a two-slot array (dropped when out of bounds). *)
Definition set2 {A : Type} (v : A * A) (i : Z) (x : A) : A * A :=
  let j := norm 2 i in
  if j =? 0 then (x, snd v)
  else if j =? 1 then (fst v, x)
  else v.

(** [v.at[i].add(d)] on a two-slot [int8] array. *)
Definition add2 (v : Z * Z) (i d : Z) : Z * Z :=
  let j := norm 2 i in
  if j =? 0 then (int8 (fst v + d), snd v)
  else if j =? 1 then (fst v, int8 (snd v + d))
  else v.

(** [v * k], elementwise. *)
Definition scale2 (v : Z * Z) (k : Z) : Z * Z := (fst v * k, snd v * k).

(** Replace slot [n] of a list; nothing happens past its end. *)
Fixpoint update {A : Type} (l : list A) (n : nat) (x : A) : list A :=
  match l, n with
  | [], _ => []
  | _ :: t, O => x :: t
  | h :: t, S m => h :: update t m x
  end.

(** [l.at[i].set(x)] on a one-dimensional array. *)
Definition at_set {A : Type} (l : list A) (i : Z) (x : A) : list A :=
  let j := norm (Z.of_nat (length l)) i in
  if j <? 0 then l else update l (Z.to_nat j) x.

(** [jnp.zeros(n, dtype=jnp.bool_)]. *)
Definition zeros (n : nat) : list bool := repeat false n.

(** [jax.lax.cond(c, t, f)]; both branches are pure. *)
Definition cond {A : Type} (c : bool) (t f : A) : A := if c then t else f.

(** [jax.lax.switch(index, branches)]: the index is clamped into range. *)
Definition switch {A : Type} (index : Z) (branches : list A) (d : A) : A :=
  let hi := Z.of_nat (length branches) - 1 in
  nth (Z.to_nat (Z.max 0 (Z.min hi index))) branches d.

End Jnp.

Import Jnp.

(** ** Constants and the state record *)

Definition FALSE : bool := false.
Definition TRUE : bool := true.
Definition CALL : Z := 0.
Definition BET : Z := 1.
Definition FOLD : Z := 2.
Definition CHECK : Z := 3.

(** A [jax.random] key: two 32-bit words. *)
Definition KeyArray : Type := (Z * Z)%type.

(** [jax.random.PRNGKey(0)]. *)
Definition PRNGKey0 : KeyArray := (0, 0).

Record State : Type := mkState {
  current_player : Z;
  observation : list (list (list bool));
  rewards : Z * Z;
  terminated : bool;
  truncated : bool;
  legal_action_mask : list bool;
  _rng_key : KeyArray;
  _step_count : Z;
  (* --- Kuhn poker specific --- *)
  _cards : Z * Z;            (* [(player 0),(player 1)] *)
  _last_action : Z;          (* 0(Call)  1(Bet)  2(Fold)  3(Check) *)
  _pot : Z * Z
}.

(** The defaults of the dataclass; [_init] overrides three of them. *)
Definition default_observation : list (list (list bool)) :=
  repeat (repeat (repeat false 2) 8) 8.

(** ** [_get_unit_reward] *)

Definition _get_unit_reward (state : State) : Z * Z :=
  cond (get2 (_cards state) (current_player state)
          >? get2 (_cards state) (int8 (1 - current_player state)))
       (set2 (-1, -1) (current_player state) 1)
       (set2 (-1, -1) (int8 (1 - current_player state)) 1).

(** ** [_step] *)

Definition _step (state : State) (action : Z) : State :=
  let action := int8 action in
  let pot :=
    cond ((action =? BET) || (action =? CALL))
         (add2 (_pot state) (current_player state) 1)
         (_pot state) in
  let '(terminated0, reward0) :=
    cond (action =? FOLD)
         (TRUE, set2 (-1, -1) (int8 (1 - current_player state)) 1)
         (FALSE, (0, 0)) in
  let '(terminated1, reward1) :=
    cond ((_last_action state =? BET) && (action =? CALL))
         (TRUE, scale2 (_get_unit_reward state) 2)
         (terminated0, reward0) in
  let '(terminated2, reward2) :=
    cond ((_last_action state =? CHECK) && (action =? CHECK))
         (TRUE, _get_unit_reward state)
         (terminated1, reward1) in
  let legal_action :=
    switch action
      [ [false; false; false; false]   (* CALL *)
      ; [true; false; true; false]     (* BET *)
      ; [false; false; false; false]   (* FOLD *)
      ; [false; true; false; true] ]   (* CHECK *)
      [] in
  {| current_player := int8 (1 - current_player state);
     observation := observation state;
     rewards := reward2;
     terminated := terminated2;
     truncated := truncated state;
     legal_action_mask := legal_action;
     _rng_key := _rng_key state;
     _step_count := _step_count state;
     _cards := _cards state;
     _last_action := action;
     _pot := pot |}.

(** ** [_observe]

    Index   Meaning
    0~2     J ~ K in hand
    3~4     0~1 chips for the current player
    5~6     0~1 chips for the opponent *)

Definition _observe (state : State) (player_id : Z) : list bool :=
  let obs := zeros 7 in
  let obs := at_set obs (get2 (_cards state) player_id) TRUE in
  let obs := at_set obs (int8 (3 + get2 (_pot state) player_id)) TRUE in
  let obs := at_set obs (int8 (5 + get2 (_pot state) (1 - player_id))) TRUE in
  obs.

(** ** [_init], over an arbitrary random source *)

Section Init.

(** [jax.random.split], [jax.random.bernoulli] and the integer draw behind
    [jax.random.choice] are the random source; the proofs assume only that
    the draw [randint key lo hi] lies in [lo, hi). *)
Variable split : KeyArray -> KeyArray * KeyArray.
Variable bernoulli : KeyArray -> bool.
Variable randint : KeyArray -> Z -> Z -> Z.

(** [jax.random.choice(key, a)]: the row of [a] at a drawn index; [d] is
    never returned when the draw is within the rows. *)
Definition choice {A : Type} (key : KeyArray) (a : list A) (d : A) : A :=
  nth (Z.to_nat (randint key 0 (Z.of_nat (length a)))) a d.

Definition deals : list (Z * Z) :=
  [(0, 1); (0, 2); (1, 0); (1, 2); (2, 0); (2, 1)].

Definition _init (rng : KeyArray) : State :=
  let '(rng1, rng2) := split rng in
  let current_player := int8 (Z.b2z (bernoulli rng1)) in
  let init_card := choice rng2 deals (-1, -1) in
  {| current_player := current_player;
     observation := default_observation;
     rewards := (0, 0);
     terminated := FALSE;
     truncated := FALSE;
     legal_action_mask := [false; true; false; true];
     _rng_key := PRNGKey0;
     _step_count := 0;
     _cards := init_card;
     _last_action := int8 (-1);
     _pot := (0, 0) |}.

End Init.

(** ** Well-formed values, legality and reachability *)

(** A seat, the index of a player. *)
Definition valid_player (p : Z) : Prop := p = 0 \/ p = 1.

(** A card rank: Jack = 0, Queen = 1, King = 2. *)
Definition valid_card (c : Z) : Prop := 0 <= c <= 2.

(** A pot entry that [_observe] can encode. *)
Definition valid_chips (c : Z) : Prop := c = 0 \/ c = 1.

Definition valid_state (s : State) : Prop :=
  valid_card (fst (_cards s)) /\ valid_card (snd (_cards s)) /\
  valid_chips (fst (_pot s)) /\ valid_chips (snd (_pot s)).

(** [a] is one of the four actions and the mask of [s] permits it. *)
Definition is_legal (s : State) (a : Z) : bool :=
  (0 <=? a) && (a <? 4) && nth (Z.to_nat a) (legal_action_mask s) false.

(** Number of set slots of a boolean vector. *)
Definition count_true (l : list bool) : nat := length (filter (fun b => b) l).

Section Reachability.

Variable split : KeyArray -> KeyArray * KeyArray.
Variable bernoulli : KeyArray -> bool.
Variable randint : KeyArray -> Z -> Z -> Z.

#[local] Abbreviation init := (_init split bernoulli randint).

(** States reached from a deal by actions that the policy [ok] admits. *)
Inductive reachable_by (ok : State -> Z -> Prop) : State -> Prop :=
| reach_init : forall rng, reachable_by ok (init rng)
| reach_step : forall s a,
    reachable_by ok s -> ok s a -> reachable_by ok (_step s a).

(** Play that respects the legal-action mask. *)
Definition reachable : State -> Prop :=
  reachable_by (fun s a => is_legal s a = true).

End Reachability.

(** A random source that always says "player 0 first" and draws the lowest
    index; used to instantiate the statements on a concrete deal. *)
Definition split0 (k : KeyArray) : KeyArray * KeyArray := (k, k).
Definition bernoulli0 (_ : KeyArray) : bool := false.
Definition randint0 (_ : KeyArray) (lo _ : Z) : Z := lo.

(** The hand dealt from that source: player 0 holds the Jack, player 1 the
    Queen, player 0 to act; and the same hand after a Bet resp. a Check of
    player 0. *)
Definition hand_JQ : State := _init split0 bernoulli0 randint0 PRNGKey0.
Definition hand_JQ_bet : State := _step hand_JQ BET.
Definition hand_JQ_check : State := _step hand_JQ CHECK.

(** [state.replace(_cards=state._cards.at[q].set(c))]: the same state with
    the card of seat [q] exchanged. *)
Definition with_card (s : State) (q c : Z) : State :=
  {| current_player := current_player s;
     observation := observation s;
     rewards := rewards s;
     terminated := terminated s;
     truncated := truncated s;
     legal_action_mask := legal_action_mask s;
     _rng_key := _rng_key s;
     _step_count := _step_count s;
     _cards := set2 (_cards s) q c;
     _last_action := _last_action s;
     _pot := _pot s |}.

(** Two states that differ at most in the card of seat [q]. *)
Definition differ_only_in_card (q : Z) (s1 s2 : State) : Prop :=
  exists c, s2 = with_card s1 q c.

(** The three slots that [_observe] sets for [player_id], in the order of
    the source. *)
Definition observe_indices (state : State) (player_id : Z) : Z * Z * Z :=
  (get2 (_cards state) player_id,
   int8 (3 + get2 (_pot state) player_id),
   int8 (5 + get2 (_pot state) (1 - player_id))).

(** The termination flag and the rewards computed by [_step], as one
    decision list on the wrapped action. *)
Definition outcome (s : State) (a : Z) : bool * (Z * Z) :=
  if (_last_action s =? CHECK) && (a =? CHECK) then (true, _get_unit_reward s)
  else if (_last_action s =? BET) && (a =? CALL)
       then (true, scale2 (_get_unit_reward s) 2)
  else if a =? FOLD
       then (true, set2 (-1, -1) (int8 (1 - current_player s)) 1)
  else (false, (0, 0)).

(** The three situations of the betting round, as the mask of the state
    tells them apart: nobody has bet yet; the player to move faces a bet;
    the mask offers nothing any more. *)
Definition open_round (s : State) : Prop :=
  legal_action_mask s = [false; true; false; true] /\ _pot s = (0, 0).

Definition facing_bet (s : State) : Prop :=
  legal_action_mask s = [true; false; true; false] /\
  _last_action s = BET /\
  ((current_player s = 0 /\ _pot s = (0, 1)) \/
   (current_player s = 1 /\ _pot s = (1, 0))).

Definition closed_round (s : State) : Prop :=
  legal_action_mask s = [false; false; false; false] /\
  valid_chips (fst (_pot s)) /\ valid_chips (snd (_pot s)).

Definition betting_inv (s : State) : Prop :=
  valid_player (current_player s) /\
  (open_round s \/ facing_bet s \/ closed_round s).

(** The cards are one of the six deals of [_init]. *)
Definition dealt (s : State) : Prop := In (_cards s) deals.

(** ** Sequences of actions and variations of a state *)

(** [_step] applied to the actions of a list, first action first. *)
Definition play (s : State) (actions : list Z) : State :=
  fold_left _step actions s.

(** [state.replace(terminated=t, rewards=r, legal_action_mask=m)]. *)
Definition with_flags (s : State) (t : bool) (r : Z * Z) (m : list bool)
  : State :=
  {| current_player := current_player s;
     observation := observation s;
     rewards := r;
     terminated := t;
     truncated := truncated s;
     legal_action_mask := m;
     _rng_key := _rng_key s;
     _step_count := _step_count s;
     _cards := _cards s;
     _last_action := _last_action s;
     _pot := _pot s |}.

(** A random source whose draw from [lo, hi) is the [k]-th value, counted
    from [lo] and wrapping around, and whose coin shows [b]. *)
Definition randint_at (k : Z) (_ : KeyArray) (lo hi : Z) : Z :=
  lo + k mod (hi - lo).
Definition bernoulli_at (b : bool) (_ : KeyArray) : bool := b.

(** * Proofs *)

(** ** Basic facts about the array operations *)

Lemma int8_small (z : Z) : -128 <= z <= 127 -> int8 z = z.
Proof.
  intros H. unfold int8.
  rewrite Z.mod_small by lia. lia.
Qed.

Lemma int8_range (z : Z) : -128 <= int8 z <= 127.
Proof.
  unfold int8. pose proof (Z.mod_pos_bound (z + 128) 256 ltac:(lia)). lia.
Qed.

Lemma other_player (p : Z) : valid_player p -> int8 (1 - p) = 1 - p.
Proof. intros [-> | ->]; reflexivity. Qed.

Lemma other_player_valid (p : Z) : valid_player p -> valid_player (1 - p).
Proof. intros [-> | ->]; [right | left]; reflexivity. Qed.

Lemma get2_0 {A : Type} (v : A * A) : get2 v 0 = fst v.
Proof. reflexivity. Qed.

Lemma get2_1 {A : Type} (v : A * A) : get2 v 1 = snd v.
Proof. reflexivity. Qed.

Lemma set2_0 {A : Type} (v : A * A) (x : A) : set2 v 0 x = (x, snd v).
Proof. reflexivity. Qed.

Lemma set2_1 {A : Type} (v : A * A) (x : A) : set2 v 1 x = (fst v, x).
Proof. reflexivity. Qed.

Lemma add2_0 (v : Z * Z) (d : Z) : add2 v 0 d = (int8 (fst v + d), snd v).
Proof. reflexivity. Qed.

Lemma add2_1 (v : Z * Z) (d : Z) : add2 v 1 d = (fst v, int8 (snd v + d)).
Proof. reflexivity. Qed.

(** Evaluate array accesses at the two in-range indices. *)
Ltac jnp_simpl :=
  rewrite ?get2_0, ?get2_1, ?set2_0, ?set2_1, ?add2_0, ?add2_1.

(** The unit reward gives +1 to the seat with the strictly higher card when
    there is one, and to the opponent of the player to move otherwise. *)
Lemma unit_reward_player0 (s : State) :
  current_player s = 0 ->
  _get_unit_reward s =
    if fst (_cards s) >? snd (_cards s) then (1, -1) else (-1, 1).
Proof.
  intros E. unfold _get_unit_reward, cond. rewrite E.
  change (int8 (1 - 0)) with 1. jnp_simpl. reflexivity.
Qed.

Lemma unit_reward_player1 (s : State) :
  current_player s = 1 ->
  _get_unit_reward s =
    if snd (_cards s) >? fst (_cards s) then (-1, 1) else (1, -1).
Proof.
  intros E. unfold _get_unit_reward, cond. rewrite E.
  change (int8 (1 - 1)) with 0. jnp_simpl. reflexivity.
Qed.

(** Split [_step] along its three conditionals on the outcome. *)
Ltac step_cases s a :=
  unfold _step, cond, TRUE, FALSE;
  destruct (int8 a =? FOLD);
  destruct ((_last_action s =? BET) && (int8 a =? CALL));
  destruct ((_last_action s =? CHECK) && (int8 a =? CHECK)).

Lemma step_outcome (s : State) (a : Z) :
  (terminated (_step s a), rewards (_step s a)) = outcome s (int8 a).
Proof. unfold outcome. step_cases s a; reflexivity. Qed.

Lemma step_current_player (s : State) (a : Z) :
  current_player (_step s a) = int8 (1 - current_player s).
Proof. step_cases s a; reflexivity. Qed.

Lemma step_last_action (s : State) (a : Z) :
  _last_action (_step s a) = int8 a.
Proof. step_cases s a; reflexivity. Qed.

Lemma step_cards (s : State) (a : Z) : _cards (_step s a) = _cards s.
Proof. step_cases s a; reflexivity. Qed.

Lemma step_pot (s : State) (a : Z) :
  _pot (_step s a) =
    if (int8 a =? BET) || (int8 a =? CALL)
    then add2 (_pot s) (current_player s) 1 else _pot s.
Proof. step_cases s a; reflexivity. Qed.

(** The mask of the next state is read off a table indexed by the action. *)
Lemma mask_of_action (s : State) (a : Z) :
  legal_action_mask (_step s a) =
    switch (int8 a)
      [ [false; false; false; false]; [true; false; true; false]
      ; [false; false; false; false]; [false; true; false; true] ] [].
Proof. step_cases s a; reflexivity. Qed.

Lemma step_terminated (s : State) (a : Z) :
  terminated (_step s a) = fst (outcome s (int8 a)).
Proof. rewrite <- step_outcome. reflexivity. Qed.

Lemma step_rewards (s : State) (a : Z) :
  rewards (_step s a) = snd (outcome s (int8 a)).
Proof. rewrite <- step_outcome. reflexivity. Qed.

(** Case analysis on a card comparison, keeping the arithmetic fact. *)
Ltac cmp_cards :=
  match goal with
  | |- context [?a >? ?b] =>
      let G := fresh "G" in
      pose proof (Zgt_cases a b) as G; destruct (a >? b)
  end.

(** ** Showdowns *)

(** At a showdown the seat [p] with the strictly higher card wins [k] times
    the unit reward and the other seat loses as much. *)
Lemma unit_reward_winner (s : State) (p k : Z) :
  valid_player (current_player s) ->
  valid_player p ->
  get2 (_cards s) p > get2 (_cards s) (1 - p) ->
  get2 (scale2 (_get_unit_reward s) k) p = k /\
  get2 (scale2 (_get_unit_reward s) k) (1 - p) = - k.
Proof.
  intros [E | E] [-> | ->] Hgt;
    [ rewrite (unit_reward_player0 s E) | rewrite (unit_reward_player0 s E)
    | rewrite (unit_reward_player1 s E) | rewrite (unit_reward_player1 s E) ];
    change (1 - 0) with 1 in *; change (1 - 1) with 0 in *;
    rewrite ?get2_0, ?get2_1 in Hgt;
    cmp_cards; unfold scale2; jnp_simpl; cbn [fst snd]; lia.
Qed.

Lemma scale2_1 (v : Z * Z) : scale2 v 1 = v.
Proof. destruct v as [a b]. unfold scale2. cbn [fst snd]. f_equal; lia. Qed.

(** C1: from a state whose last action is Bet, [_step] with Call ends the
    hand and pays +2 to the holder of the strictly higher card and -2 to the
    other player; from a state whose last action is Check, [_step] with Check
    ends the hand and pays +1 and -1 in the same way. *)
Theorem showdown_payoff (s : State) :
  valid_player (current_player s) ->
  (_last_action s = BET ->
     terminated (_step s CALL) = true /\
     forall p, valid_player p ->
       get2 (_cards s) p > get2 (_cards s) (1 - p) ->
       get2 (rewards (_step s CALL)) p = 2 /\
       get2 (rewards (_step s CALL)) (1 - p) = -2) /\
  (_last_action s = CHECK ->
     terminated (_step s CHECK) = true /\
     forall p, valid_player p ->
       get2 (_cards s) p > get2 (_cards s) (1 - p) ->
       get2 (rewards (_step s CHECK)) p = 1 /\
       get2 (rewards (_step s CHECK)) (1 - p) = -1).
Proof.
  intros Hcp. split; intros Hl; rewrite step_terminated, step_rewards.
  - change (int8 CALL) with CALL.
    replace (outcome s CALL) with (true, scale2 (_get_unit_reward s) 2)
      by (unfold outcome; rewrite Hl; reflexivity).
    split; [reflexivity |]. intros p Hp Hgt.
    exact (unit_reward_winner s p 2 Hcp Hp Hgt).
  - change (int8 CHECK) with CHECK.
    replace (outcome s CHECK) with (true, scale2 (_get_unit_reward s) 1)
      by (unfold outcome; rewrite Hl, scale2_1; reflexivity).
    split; [reflexivity |]. intros p Hp Hgt.
    exact (unit_reward_winner s p 1 Hcp Hp Hgt).
Qed.

Lemma showdown_payoff_witness :
  (terminated (_step hand_JQ_bet CALL) = true /\
   get2 (rewards (_step hand_JQ_bet CALL)) 1 = 2 /\
   get2 (rewards (_step hand_JQ_bet CALL)) (1 - 1) = -2) /\
  (terminated (_step hand_JQ_check CHECK) = true /\
   get2 (rewards (_step hand_JQ_check CHECK)) 1 = 1 /\
   get2 (rewards (_step hand_JQ_check CHECK)) (1 - 1) = -1).
Proof.
  split.
  - destruct (showdown_payoff hand_JQ_bet (or_intror eq_refl)) as [Hb _].
    destruct (Hb eq_refl) as [Ht Hr].
    split; [exact Ht |].
    apply (Hr 1 (or_intror eq_refl)). vm_compute. reflexivity.
  - destruct (showdown_payoff hand_JQ_check (or_intror eq_refl)) as [_ Hc].
    destruct (Hc eq_refl) as [Ht Hr].
    split; [exact Ht |].
    apply (Hr 1 (or_intror eq_refl)). vm_compute. reflexivity.
Defined.

(** ** Folding *)

Lemma fold_outcome (s : State) :
  outcome s FOLD = (true, set2 (-1, -1) (int8 (1 - current_player s)) 1).
Proof.
  unfold outcome. change (FOLD =? CHECK) with false.
  change (FOLD =? CALL) with false. rewrite !andb_false_r. reflexivity.
Qed.

(** C2: [_step] with Fold ends the hand, the acting player gets -1 and the
    opponent +1; the rewards are a function of the acting seat alone, so the
    cards play no part. *)
Theorem fold_payoff (s : State) :
  valid_player (current_player s) ->
  terminated (_step s FOLD) = true /\
  get2 (rewards (_step s FOLD)) (current_player s) = -1 /\
  get2 (rewards (_step s FOLD)) (1 - current_player s) = 1 /\
  rewards (_step s FOLD) =
    (if current_player s =? 0 then (-1, 1) else (1, -1)).
Proof.
  intros Hcp. rewrite step_terminated, step_rewards.
  change (int8 FOLD) with FOLD. rewrite fold_outcome. cbn [fst snd].
  destruct Hcp as [E | E]; rewrite E; repeat split; reflexivity.
Qed.

Lemma fold_payoff_witness :
  terminated (_step hand_JQ_bet FOLD) = true /\
  get2 (rewards (_step hand_JQ_bet FOLD)) (current_player hand_JQ_bet) = -1 /\
  get2 (rewards (_step hand_JQ_bet FOLD)) (1 - current_player hand_JQ_bet) = 1 /\
  rewards (_step hand_JQ_bet FOLD) =
    (if current_player hand_JQ_bet =? 0 then (-1, 1) else (1, -1)).
Proof.
  apply (fold_payoff hand_JQ_bet). right. reflexivity.
Defined.

(** ** Shape of the rewards *)

(** The rewards returned by [_step] are one of five pairs, and the zero pair
    exactly when the hand goes on. *)
Lemma outcome_cases (s : State) (a : Z) :
  valid_player (current_player s) ->
  outcome s a = (false, (0, 0)) \/
  exists m, (m = 1 \/ m = 2) /\
    (outcome s a = (true, (m, - m)) \/ outcome s a = (true, (- m, m))).
Proof.
  intros Hcp. unfold outcome.
  assert (Hu : _get_unit_reward s = (1, -1) \/ _get_unit_reward s = (-1, 1)).
  { destruct Hcp as [E | E];
      [ rewrite (unit_reward_player0 s E) | rewrite (unit_reward_player1 s E) ];
      cmp_cards; auto. }
  assert (Hf : set2 (-1, -1) (int8 (1 - current_player s)) 1 = (1, -1) \/
               set2 (-1, -1) (int8 (1 - current_player s)) 1 = (-1, 1)).
  { destruct Hcp as [E | E]; rewrite E; [right | left]; reflexivity. }
  destruct ((_last_action s =? CHECK) && (a =? CHECK)).
  { right. exists 1. split; [auto |].
    destruct Hu as [-> | ->]; [left | right]; reflexivity. }
  destruct ((_last_action s =? BET) && (a =? CALL)).
  { right. exists 2. split; [auto |].
    destruct Hu as [-> | ->]; [left | right]; reflexivity. }
  destruct (a =? FOLD).
  { right. exists 1. split; [auto |].
    destruct Hf as [-> | ->]; [left | right]; reflexivity. }
  left. reflexivity.
Qed.

(** C3: the two rewards of the state returned by [_step] add up to zero,
    whatever the action; in particular in every terminal state. *)
Theorem zero_sum (s : State) (a : Z) :
  valid_player (current_player s) ->
  fst (rewards (_step s a)) + snd (rewards (_step s a)) = 0.
Proof.
  intros Hcp. rewrite step_rewards.
  destruct (outcome_cases s (int8 a) Hcp) as [-> | (m & _ & [-> | ->])];
    cbn [fst snd]; lia.
Qed.

Lemma zero_sum_witness :
  fst (rewards (_step hand_JQ_bet CALL))
  + snd (rewards (_step hand_JQ_bet CALL)) = 0.
Proof.
  apply (zero_sum hand_JQ_bet CALL). right. reflexivity.
Defined.

(** C4: a state returned by [_step] that is not terminated has rewards
    (0, 0); rewards other than (0, 0) are [m] for the winner and [- m] for
    the loser, with [m] equal to 1 or 2. *)
Theorem rewards_shape (s : State) (a : Z) :
  valid_player (current_player s) ->
  (terminated (_step s a) = false -> rewards (_step s a) = (0, 0)) /\
  (rewards (_step s a) <> (0, 0) ->
   exists m, (m = 1 \/ m = 2) /\
     (rewards (_step s a) = (m, - m) \/ rewards (_step s a) = (- m, m))).
Proof.
  intros Hcp. rewrite step_terminated, step_rewards.
  destruct (outcome_cases s (int8 a) Hcp) as [-> | (m & Hm & [-> | ->])];
    cbn [fst snd]; split; try discriminate; try congruence;
    intros _; exists m; auto.
Qed.

Lemma rewards_shape_witness :
  rewards (_step hand_JQ BET) = (0, 0) /\
  exists m, (m = 1 \/ m = 2) /\
    (rewards (_step hand_JQ_bet CALL) = (m, - m) \/
     rewards (_step hand_JQ_bet CALL) = (- m, m)).
Proof.
  split.
  - apply (rewards_shape hand_JQ BET); [left |]; reflexivity.
  - apply (rewards_shape hand_JQ_bet CALL); [right; reflexivity |].
    vm_compute. discriminate.
Defined.

(** ** The legal-action mask *)

Lemma is_legal_action (s : State) (a : Z) :
  is_legal s a = true -> a = CALL \/ a = BET \/ a = FOLD \/ a = CHECK.
Proof.
  unfold is_legal, CALL, BET, FOLD, CHECK. intros H.
  apply andb_prop in H. destruct H as [H _].
  apply andb_prop in H. destruct H as [H0 H4].
  apply Z.leb_le in H0. apply Z.ltb_lt in H4. lia.
Qed.

Lemma no_legal_action (s : State) :
  legal_action_mask s = [false; false; false; false] ->
  forall b, is_legal s b = false.
Proof.
  intros E b. unfold is_legal. rewrite E.
  destruct (Z.to_nat b) as [| [| [| [| [| n]]]]];
    cbn [nth]; apply andb_false_r.
Qed.

(** Reading the table at an arbitrary index: Call and Fold are offered by
    the row of Bet only. *)
Lemma mask_rows (x : Z) :
  let row := switch x
      [ [false; false; false; false]; [true; false; true; false]
      ; [false; false; false; false]; [false; true; false; true] ] [] in
  (x = BET /\ row = [true; false; true; false]) \/
  (x <> BET /\ nth 0 row false = false /\ nth 2 row false = false).
Proof.
  unfold switch, BET. cbn [length Z.of_nat].
  destruct (Z.eq_dec x 1) as [-> | Hx]; [left; split; reflexivity | right].
  split; [exact Hx |].
  assert (Hc : Z.to_nat (Z.max 0 (Z.min (Z.of_nat 4 - 1) x)) = 0%nat \/
               Z.to_nat (Z.max 0 (Z.min (Z.of_nat 4 - 1) x)) = 2%nat \/
               Z.to_nat (Z.max 0 (Z.min (Z.of_nat 4 - 1) x)) = 3%nat) by lia.
  change (Pos.of_succ_nat 3) with 4%positive.
  change (Z.of_nat 4) with 4 in Hc.
  destruct Hc as [-> | [-> | ->]]; split; reflexivity.
Qed.

(** ** Invariants of play *)

Lemma deals_distinct (c : Z * Z) :
  In c deals ->
  valid_card (fst c) /\ valid_card (snd c) /\ fst c <> snd c.
Proof.
  unfold deals, valid_card. cbn [In].
  intros [<- | [<- | [<- | [<- | [<- | [<- | []]]]]]]; cbn [fst snd]; lia.
Qed.

Lemma open_round_step (s : State) (a : Z) :
  valid_player (current_player s) -> open_round s -> is_legal s a = true ->
  facing_bet (_step s a) \/ open_round (_step s a).
Proof.
  intros Hcp [Hm Hp] Hl.
  destruct (is_legal_action s a Hl) as [-> | [-> | [-> | ->]]];
    unfold is_legal in Hl; rewrite Hm in Hl; try discriminate Hl.
  - left. unfold facing_bet.
    rewrite mask_of_action, step_last_action, step_current_player, step_pot, Hp.
    destruct Hcp as [-> | ->]; repeat split; auto.
  - right. unfold open_round. rewrite mask_of_action, step_pot, Hp.
    split; reflexivity.
Qed.

Lemma facing_bet_step (s : State) (a : Z) :
  facing_bet s -> is_legal s a = true ->
  closed_round (_step s a) /\ terminated (_step s a) = true.
Proof.
  intros (Hm & Hb & Hp) Hl.
  destruct (is_legal_action s a Hl) as [-> | [-> | [-> | ->]]];
    unfold is_legal in Hl; rewrite Hm in Hl; try discriminate Hl.
  - split.
    + unfold closed_round, valid_chips. rewrite mask_of_action, step_pot.
      destruct Hp as [[-> ->] | [-> ->]]; repeat split; auto.
    + rewrite step_terminated. unfold outcome. rewrite Hb. reflexivity.
  - split.
    + unfold closed_round, valid_chips. rewrite mask_of_action, step_pot.
      destruct Hp as [[-> ->] | [-> ->]]; repeat split; auto.
    + rewrite step_terminated. change (int8 FOLD) with FOLD.
      rewrite fold_outcome. reflexivity.
Qed.

Lemma closed_round_stuck (s : State) (a : Z) :
  closed_round s -> is_legal s a = false.
Proof. intros [Hm _]. apply no_legal_action, Hm. Qed.

Lemma betting_inv_step (s : State) (a : Z) :
  betting_inv s -> is_legal s a = true -> betting_inv (_step s a).
Proof.
  intros [Hcp Hs] Hl. split.
  - rewrite step_current_player, (other_player _ Hcp).
    apply other_player_valid, Hcp.
  - destruct Hs as [Ho | [Hf | Hc]].
    + destruct (open_round_step s a Hcp Ho Hl); auto.
    + right. right. apply (facing_bet_step s a Hf Hl).
    + rewrite (closed_round_stuck s a Hc) in Hl. discriminate Hl.
Qed.

Lemma betting_inv_pot (s : State) :
  betting_inv s -> valid_chips (fst (_pot s)) /\ valid_chips (snd (_pot s)).
Proof.
  unfold valid_chips.
  intros [_ [[_ ->] | [(_ & _ & [[_ ->] | [_ ->]]) | (_ & H)]]];
    cbn [fst snd]; auto.
Qed.

Section Play.

Variable split : KeyArray -> KeyArray * KeyArray.
Variable bernoulli : KeyArray -> bool.
Variable randint : KeyArray -> Z -> Z -> Z.
Hypothesis randint_range :
  forall key lo hi, lo < hi -> lo <= randint key lo hi < hi.

#[local] Abbreviation init := (_init split bernoulli randint).

Lemma init_dealt (rng : KeyArray) : dealt (init rng).
Proof.
  unfold dealt, init, _init, choice. destruct (split rng) as [rng1 rng2].
  cbn [_cards]. apply nth_In.
  pose proof (randint_range rng2 0 (Z.of_nat (length deals))) as H.
  cbn [deals length Z.of_nat] in *. lia.
Qed.

Lemma init_betting_inv (rng : KeyArray) : betting_inv (init rng).
Proof.
  unfold init, _init. destruct (split rng) as [rng1 rng2]. split.
  - cbn [current_player]. destruct (bernoulli rng1); [right | left]; reflexivity.
  - left. split; reflexivity.
Qed.

Lemma reachable_by_dealt (ok : State -> Z -> Prop) (s : State) :
  reachable_by split bernoulli randint ok s -> dealt s.
Proof.
  induction 1 as [rng | s a _ IH _].
  - apply init_dealt.
  - unfold dealt. rewrite step_cards. exact IH.
Qed.

Lemma reachable_by_player (ok : State -> Z -> Prop) (s : State) :
  reachable_by split bernoulli randint ok s -> valid_player (current_player s).
Proof.
  induction 1 as [rng | s a _ IH _].
  - apply init_betting_inv.
  - rewrite step_current_player, (other_player _ IH).
    apply other_player_valid, IH.
Qed.

Lemma reachable_betting_inv (s : State) :
  reachable split bernoulli randint s -> betting_inv s.
Proof.
  induction 1 as [rng | s a _ IH Hl].
  - apply init_betting_inv.
  - apply betting_inv_step; assumption.
Qed.

(** C6: for every key, [_init] returns a state that is not terminated, with
    pot (0, 0), last action the sentinel -1, a mask in which exactly Bet and
    Check are legal, and two distinct cards among Jack = 0, Queen = 1,
    King = 2. *)
Theorem init_spec (rng : KeyArray) :
  terminated (init rng) = false /\
  _pot (init rng) = (0, 0) /\
  _last_action (init rng) = -1 /\
  legal_action_mask (init rng) = [false; true; false; true] /\
  (forall a, is_legal (init rng) a = true <-> a = BET \/ a = CHECK) /\
  valid_card (fst (_cards (init rng))) /\
  valid_card (snd (_cards (init rng))) /\
  fst (_cards (init rng)) <> snd (_cards (init rng)).
Proof.
  pose proof (deals_distinct _ (init_dealt rng)) as (H0 & H1 & Hd).
  assert (Hm : legal_action_mask (init rng) = [false; true; false; true])
    by (unfold init, _init; destruct (split rng); reflexivity).
  split; [| split; [| split; [| split; [exact Hm | split; [| auto]]]]];
    try (unfold init, _init; destruct (split rng); reflexivity).
  intros a. split.
  - intros Hl. pose proof (is_legal_action _ _ Hl) as Ha.
    unfold is_legal in Hl. rewrite Hm in Hl.
    destruct Ha as [-> | [-> | [-> | ->]]]; try discriminate Hl; auto.
  - unfold is_legal. rewrite Hm. intros [-> | ->]; reflexivity.
Qed.

(** C9: in every state reached from a deal by actions that the mask permits,
    each pot entry is 0 or 1; hence for either player the three slots
    written by [_observe] lie in 0..2, 3..4 and 5..6 of the 7-slot vector and
    are pairwise distinct. *)
Theorem pot_at_most_one (s : State) :
  reachable split bernoulli randint s ->
  (valid_chips (fst (_pot s)) /\ valid_chips (snd (_pot s))) /\
  forall p i1 i2 i3, valid_player p ->
    observe_indices s p = (i1, i2, i3) ->
    (0 <= i1 <= 2 /\ 3 <= i2 <= 4 /\ 5 <= i3 <= 6) /\
    (i1 <> i2 /\ i1 <> i3 /\ i2 <> i3) /\
    (0 <= i1 < 7 /\ 0 <= i2 < 7 /\ 0 <= i3 < 7).
Proof.
  intros Hr.
  pose proof (betting_inv_pot s (reachable_betting_inv s Hr)) as [Hp0 Hp1].
  pose proof (deals_distinct _ (reachable_by_dealt _ s Hr)) as (Hc0 & Hc1 & _).
  split; [split; assumption |].
  intros p i1 i2 i3 Hp E. unfold observe_indices in E.
  injection E as <- <- <-.
  unfold valid_card, valid_chips in *.
  destruct (_cards s) as [c0 c1], (_pot s) as [p0 p1]. cbn [fst snd] in *.
  destruct Hp as [-> | ->]; change (1 - 0) with 1; change (1 - 1) with 0;
    rewrite ?get2_0, ?get2_1; cbn [fst snd];
    destruct Hp0 as [-> | ->], Hp1 as [-> | ->];
    rewrite !int8_small by lia; lia.
Qed.

(** C10: [_step] returns the cards it was given (and leaves the other
    fields that it does not replace untouched); hence in every state
    reached from a deal, by whatever actions, the two cards are distinct
    ranks and the card of the player to move differs from the opponent's,
    so that a showdown is never tied. *)
Theorem step_keeps_cards :
  (forall s a,
     _cards (_step s a) = _cards s /\
     observation (_step s a) = observation s /\
     truncated (_step s a) = truncated s /\
     _rng_key (_step s a) = _rng_key s /\
     _step_count (_step s a) = _step_count s) /\
  (forall ok s, reachable_by split bernoulli randint ok s ->
     fst (_cards s) <> snd (_cards s) /\
     get2 (_cards s) (current_player s)
       <> get2 (_cards s) (int8 (1 - current_player s))).
Proof.
  split.
  - intros s a. step_cases s a; repeat split; reflexivity.
  - intros ok s Hr.
    pose proof (deals_distinct _ (reachable_by_dealt ok s Hr)) as (_ & _ & Hd).
    split; [exact Hd |].
    destruct (reachable_by_player ok s Hr) as [-> | ->];
      [change (int8 (1 - 0)) with 1 | change (int8 (1 - 1)) with 0];
      rewrite get2_0, get2_1; congruence.
Qed.

End Play.

Section MaskTotality.

Variable split : KeyArray -> KeyArray * KeyArray.
Variable bernoulli : KeyArray -> bool.
Variable randint : KeyArray -> Z -> Z -> Z.

(** Call and Fold are offered only to a player facing a bet. *)
Lemma call_fold_facing_bet (s : State) :
  betting_inv s ->
  is_legal s CALL = true \/ is_legal s FOLD = true -> _last_action s = BET.
Proof.
  intros [_ [[Hm _] | [(_ & Hb & _) | [Hm _]]]] Hl; [| exact Hb |];
    unfold is_legal in Hl; rewrite Hm in Hl;
    destruct Hl as [Hl | Hl]; discriminate Hl.
Qed.

(** After Bet or Check the mask offers two actions; so it does after any
    action that does not end the hand, unless that action is a Call that
    answers no Bet. *)
Lemma next_mask_inhabited (s : State) (a : Z) :
  a = CALL \/ a = BET \/ a = FOLD \/ a = CHECK ->
  (a = CALL -> _last_action s = BET) ->
  terminated (_step s a) = false ->
  exists b, is_legal (_step s a) b = true.
Proof.
  intros Ha Hcall Ht.
  destruct Ha as [-> | [-> | [-> | ->]]].
  - rewrite step_terminated in Ht. unfold outcome in Ht.
    rewrite (Hcall eq_refl) in Ht. discriminate Ht.
  - exists CALL. unfold is_legal. rewrite mask_of_action. reflexivity.
  - rewrite step_terminated in Ht. change (int8 FOLD) with FOLD in Ht.
    rewrite fold_outcome in Ht. discriminate Ht.
  - exists BET. unfold is_legal. rewrite mask_of_action. reflexivity.
Qed.

(** C5 (amended): the mask of the state returned by [_step] is a function of
    the action alone: empty after Call and after Fold, {Call, Fold} after
    Bet, {Bet, Check} after Check.  Call and Fold are legal in a returned
    state, and in a state reached by play that respects the mask, only when
    its last action is Bet.  A returned state that is not terminated offers
    an action whenever the action taken was one of the four and was not a
    Call on a state whose last action is not Bet; this covers every action
    that the mask permits in a state reached by play that respects the
    mask. *)
Theorem mask_after_action :
  (forall s,
     legal_action_mask (_step s CALL) = [false; false; false; false] /\
     legal_action_mask (_step s BET) = [true; false; true; false] /\
     legal_action_mask (_step s FOLD) = [false; false; false; false] /\
     legal_action_mask (_step s CHECK) = [false; true; false; true]) /\
  (forall s1 s2 a,
     legal_action_mask (_step s1 a) = legal_action_mask (_step s2 a)) /\
  (forall s a,
     is_legal (_step s a) CALL = true \/ is_legal (_step s a) FOLD = true ->
     _last_action (_step s a) = BET) /\
  (forall s,
     reachable split bernoulli randint s ->
     is_legal s CALL = true \/ is_legal s FOLD = true ->
     _last_action s = BET) /\
  (forall s a,
     a = CALL \/ a = BET \/ a = FOLD \/ a = CHECK ->
     (a = CALL -> _last_action s = BET) ->
     terminated (_step s a) = false ->
     exists b, is_legal (_step s a) b = true) /\
  (forall s a,
     reachable split bernoulli randint s ->
     is_legal s a = true ->
     terminated (_step s a) = false ->
     exists b, is_legal (_step s a) b = true).
Proof.
  split; [| split; [| split; [| split; [| split]]]].
  - intros s. rewrite !mask_of_action. repeat split; reflexivity.
  - intros s1 s2 a. rewrite !mask_of_action. reflexivity.
  - intros s a Hl. rewrite step_last_action.
    unfold is_legal in Hl. rewrite mask_of_action in Hl.
    destruct (mask_rows (int8 a)) as [[E _] | (_ & H0 & H2)]; [exact E |].
    cbv zeta in H0, H2. change (Z.to_nat CALL) with 0%nat in Hl.
    change (Z.to_nat FOLD) with 2%nat in Hl. rewrite H0, H2 in Hl.
    destruct Hl as [Hl | Hl]; discriminate Hl.
  - intros s Hr. apply call_fold_facing_bet.
    exact (reachable_betting_inv split bernoulli randint s Hr).
  - exact next_mask_inhabited.
  - intros s a Hr Hl. apply next_mask_inhabited.
    + exact (is_legal_action s a Hl).
    + intros ->. apply call_fold_facing_bet; [| left; exact Hl].
      exact (reachable_betting_inv split bernoulli randint s Hr).
Qed.

End MaskTotality.

(** C5 (as stated) fails on a Call that answers no Bet: from the opening
    state of a hand, Call returns a state that is not terminated and whose
    mask permits no action at all. *)
Lemma mask_totality_counterexample :
  terminated (_step hand_JQ CALL) = false /\
  legal_action_mask (_step hand_JQ CALL) = [false; false; false; false] /\
  ~ (exists b, is_legal (_step hand_JQ CALL) b = true).
Proof.
  split; [reflexivity | split; [reflexivity |]].
  intros [b Hb].
  rewrite (no_legal_action (_step hand_JQ CALL) eq_refl b) in Hb.
  discriminate Hb.
Qed.

(** ** Observations *)

Lemma observe_unfold (s : State) (p : Z) :
  _observe s p =
    let '(i1, i2, i3) := observe_indices s p in
    at_set (at_set (at_set (zeros 7) i1 true) i2 true) i3 true.
Proof. reflexivity. Qed.

(** Decide one slot of a concrete observation. *)
Ltac slot_case :=
  cbn; split;
  [ intros H; first [ discriminate H | lia ]
  | intros H; first [ reflexivity | exfalso; lia ] ].

(** Setting a card slot, an own-chips slot and an opponent-chips slot on the
    zero vector sets exactly these three slots. *)
Lemma three_slots (c own opp : Z) :
  valid_card c -> valid_chips own -> valid_chips opp ->
  let obs :=
    at_set (at_set (at_set (zeros 7) c true) (int8 (3 + own)) true)
           (int8 (5 + opp)) true in
  length obs = 7%nat /\
  count_true obs = 3%nat /\
  forall i : nat,
    nth i obs false = true <->
    (Z.of_nat i = c \/ Z.of_nat i = 3 + own \/ Z.of_nat i = 5 + opp).
Proof.
  unfold valid_card, valid_chips. intros Hc Ho Hp.
  assert (Hc' : c = 0 \/ c = 1 \/ c = 2) by lia. clear Hc.
  destruct Hc' as [-> | [-> | ->]], Ho as [-> | ->], Hp as [-> | ->];
    (split; [reflexivity | split; [reflexivity |]]);
    intros i;
    do 7 (destruct i as [| i]; [slot_case |]);
    destruct i; slot_case.
Qed.

(** C7: for a state whose cards are ranks 0..2 and whose pot entries are 0
    or 1, and for a player 0 or 1, [_observe] returns 7 slots of which
    exactly three are set: the rank of the player's own card, 3 plus the
    player's own pot entry, and 5 plus the opponent's pot entry. *)
Theorem observe_one_hot (s : State) (p : Z) :
  valid_state s -> valid_player p ->
  length (_observe s p) = 7%nat /\
  count_true (_observe s p) = 3%nat /\
  forall i : nat,
    nth i (_observe s p) false = true <->
    (Z.of_nat i = get2 (_cards s) p \/
     Z.of_nat i = 3 + get2 (_pot s) p \/
     Z.of_nat i = 5 + get2 (_pot s) (1 - p)).
Proof.
  intros (Hc0 & Hc1 & Hp0 & Hp1) Hp.
  apply (three_slots (get2 (_cards s) p) (get2 (_pot s) p)
                     (get2 (_pot s) (1 - p)));
    destruct Hp as [-> | ->]; assumption.
Qed.

Lemma observe_one_hot_witness :
  length (_observe hand_JQ_bet 1) = 7%nat /\
  count_true (_observe hand_JQ_bet 1) = 3%nat /\
  forall i : nat,
    nth i (_observe hand_JQ_bet 1) false = true <->
    (Z.of_nat i = get2 (_cards hand_JQ_bet) 1 \/
     Z.of_nat i = 3 + get2 (_pot hand_JQ_bet) 1 \/
     Z.of_nat i = 5 + get2 (_pot hand_JQ_bet) (1 - 1)).
Proof.
  apply (observe_one_hot hand_JQ_bet 1).
  - unfold valid_state, valid_card, valid_chips. vm_compute.
    repeat split; try discriminate; auto.
  - right. reflexivity.
Defined.

(** C8: for a player 0 or 1, two states that differ only in the card of the
    opponent have the same observation; [_observe] reads the player's own
    card and the pot, nothing else. *)
Theorem observe_hides_opponent_card (p : Z) (s1 s2 : State) :
  valid_player p ->
  differ_only_in_card (1 - p) s1 s2 ->
  _observe s1 p = _observe s2 p.
Proof.
  intros Hp [c ->]. unfold _observe. cbn [with_card _cards _pot].
  destruct Hp as [-> | ->]; reflexivity.
Qed.

Lemma observe_hides_opponent_card_witness :
  _observe hand_JQ 0 = _observe (with_card hand_JQ 1 2) 0.
Proof.
  apply (observe_hides_opponent_card 0 hand_JQ (with_card hand_JQ 1 2)).
  - left. reflexivity.
  - exists 2. reflexivity.
Defined.

(** ** The statements on a concrete deal *)

Lemma randint0_range (key : KeyArray) (lo hi : Z) :
  lo < hi -> lo <= randint0 key lo hi < hi.
Proof. unfold randint0. lia. Qed.

Lemma hand_JQ_bet_reachable :
  reachable split0 bernoulli0 randint0 hand_JQ_bet.
Proof.
  apply reach_step; [apply reach_init | reflexivity].
Qed.

Lemma init_spec_witness :
  terminated hand_JQ = false /\
  _pot hand_JQ = (0, 0) /\
  _last_action hand_JQ = -1 /\
  legal_action_mask hand_JQ = [false; true; false; true] /\
  (forall a, is_legal hand_JQ a = true <-> a = BET \/ a = CHECK) /\
  valid_card (fst (_cards hand_JQ)) /\
  valid_card (snd (_cards hand_JQ)) /\
  fst (_cards hand_JQ) <> snd (_cards hand_JQ).
Proof.
  exact (init_spec split0 bernoulli0 randint0 randint0_range PRNGKey0).
Defined.

Lemma pot_at_most_one_witness :
  (valid_chips (fst (_pot hand_JQ_bet)) /\
   valid_chips (snd (_pot hand_JQ_bet))) /\
  (0 <= 1 <= 2 /\ 3 <= 3 <= 4 /\ 5 <= 6 <= 6) /\
  (1 <> 3 /\ 1 <> 6 /\ 3 <> 6) /\
  (0 <= 1 < 7 /\ 0 <= 3 < 7 /\ 0 <= 6 < 7).
Proof.
  destruct (pot_at_most_one split0 bernoulli0 randint0 randint0_range
              hand_JQ_bet hand_JQ_bet_reachable) as [Hpot Hidx].
  split; [exact Hpot |].
  apply (Hidx 1 1 3 6); [right |]; reflexivity.
Defined.

Lemma step_keeps_cards_witness :
  _cards (_step hand_JQ_bet CALL) = _cards hand_JQ_bet /\
  fst (_cards hand_JQ_bet) <> snd (_cards hand_JQ_bet).
Proof.
  destruct (step_keeps_cards split0 bernoulli0 randint0 randint0_range)
    as [Hframe Hreach].
  split.
  - apply (Hframe hand_JQ_bet CALL).
  - apply (Hreach _ hand_JQ_bet hand_JQ_bet_reachable).
Defined.

(** ** The engine on the hand Jack against Queen *)

Example bet_call_showdown :
  terminated (_step hand_JQ_bet CALL) = true /\
  rewards (_step hand_JQ_bet CALL) = (-2, 2) /\
  _pot (_step hand_JQ_bet CALL) = (1, 1).
Proof. repeat split; reflexivity. Qed.

Example check_check_showdown :
  terminated (_step hand_JQ_check CHECK) = true /\
  rewards (_step hand_JQ_check CHECK) = (-1, 1) /\
  _pot (_step hand_JQ_check CHECK) = (0, 0).
Proof. repeat split; reflexivity. Qed.

Example check_bet_fold :
  terminated (_step (_step hand_JQ_check BET) FOLD) = true /\
  rewards (_step (_step hand_JQ_check BET) FOLD) = (-1, 1).
Proof. split; reflexivity. Qed.

Example bet_fold :
  terminated (_step hand_JQ_bet FOLD) = true /\
  rewards (_step hand_JQ_bet FOLD) = (1, -1).
Proof. split; reflexivity. Qed.

Example observe_after_bet :
  _observe hand_JQ_bet 0 = [true; false; false; false; true; true; false] /\
  _observe hand_JQ_bet 1 = [false; true; false; true; false; false; true].
Proof. split; reflexivity. Qed.

(** * Further properties of the engine *)

(** ** Turns *)

Lemma step_player_flips (s : State) (a : Z) :
  valid_player (current_player s) ->
  current_player (_step s a) = 1 - current_player s /\
  valid_player (current_player (_step s a)).
Proof.
  intros Hcp. rewrite step_current_player, (other_player _ Hcp).
  split; [reflexivity | apply other_player_valid, Hcp].
Qed.

(** X1: along any sequence of actions the player to move alternates: after
    an even number of actions it is the player who started, after an odd
    number the other one. *)
Theorem turn_parity (s : State) (actions : list Z) :
  valid_player (current_player s) ->
  current_player (play s actions) =
    if Nat.even (length actions) then current_player s
    else 1 - current_player s.
Proof.
  unfold play. revert s.
  induction actions as [| a l IH]; intros s Hcp; [reflexivity |].
  destruct (step_player_flips s a Hcp) as [E Hv].
  cbn [fold_left]. rewrite (IH (_step s a) Hv), E.
  change (length (a :: l)) with (S (length l)).
  rewrite Nat.even_succ, <- Nat.negb_even.
  destruct (Nat.even (length l)); cbn [negb]; [reflexivity | lia].
Qed.

Lemma turn_parity_witness :
  current_player (play hand_JQ [CHECK; BET; CALL]) =
    if Nat.even (length [CHECK; BET; CALL]) then current_player hand_JQ
    else 1 - current_player hand_JQ.
Proof.
  apply (turn_parity hand_JQ [CHECK; BET; CALL]). left. reflexivity.
Defined.

(** ** When a hand ends *)

Lemma outcome_terminated (s : State) (a : Z) :
  fst (outcome s a) =
    (a =? FOLD) || ((_last_action s =? BET) && (a =? CALL))
    || ((_last_action s =? CHECK) && (a =? CHECK)).
Proof.
  unfold outcome.
  destruct ((_last_action s =? CHECK) && (a =? CHECK));
    [rewrite orb_true_r; reflexivity |].
  destruct ((_last_action s =? BET) && (a =? CALL));
    [rewrite orb_true_r; reflexivity |].
  destruct (a =? FOLD); reflexivity.
Qed.

(** X2: the state returned by [_step] is terminated exactly when the action
    is Fold, or Call on a last action Bet, or Check on a last action Check;
    the flags of the state stepped from play no part, and Bet never ends a
    hand. *)
Theorem terminated_iff (s : State) (a : Z) :
  (terminated (_step s a) = true <->
   int8 a = FOLD \/
   (_last_action s = BET /\ int8 a = CALL) \/
   (_last_action s = CHECK /\ int8 a = CHECK)) /\
  terminated (_step s BET) = false.
Proof.
  split.
  - rewrite step_terminated, outcome_terminated.
    rewrite !orb_true_iff, !andb_true_iff, !Z.eqb_eq. tauto.
  - rewrite step_terminated, outcome_terminated.
    change (int8 BET) with BET. change (BET =? FOLD) with false.
    change (BET =? CALL) with false. change (BET =? CHECK) with false.
    rewrite !andb_false_r. reflexivity.
Qed.

(** X3: the state returned by [_step] is terminated exactly when its
    rewards are not (0, 0). *)
Theorem terminated_iff_rewards (s : State) (a : Z) :
  valid_player (current_player s) ->
  terminated (_step s a) = true <-> rewards (_step s a) <> (0, 0).
Proof.
  intros Hcp. rewrite step_terminated, step_rewards.
  destruct (outcome_cases s (int8 a) Hcp) as [-> | (m & Hm & [-> | ->])];
    cbn [fst snd]; split; try discriminate; try congruence;
    intros _; try reflexivity; intros E; injection E; lia.
Qed.

Lemma terminated_iff_rewards_witness :
  terminated (_step hand_JQ_bet FOLD) = true <->
  rewards (_step hand_JQ_bet FOLD) <> (0, 0).
Proof.
  apply (terminated_iff_rewards hand_JQ_bet FOLD). right. reflexivity.
Defined.

(** ** The pot *)

(** X4: Bet and Call add one chip (in [int8]) to the pot entry of the player
    who acts and leave the opponent's entry alone; every other action
    returns the pot unchanged. *)
Theorem pot_update (s : State) (a : Z) :
  valid_player (current_player s) ->
  (int8 a = BET \/ int8 a = CALL ->
   get2 (_pot (_step s a)) (current_player s)
     = int8 (get2 (_pot s) (current_player s) + 1) /\
   get2 (_pot (_step s a)) (1 - current_player s)
     = get2 (_pot s) (1 - current_player s)) /\
  (int8 a <> BET -> int8 a <> CALL -> _pot (_step s a) = _pot s).
Proof.
  intros Hcp. rewrite step_pot. split.
  - intros Ha.
    replace ((int8 a =? BET) || (int8 a =? CALL)) with true
      by (symmetry; rewrite orb_true_iff, !Z.eqb_eq; exact Ha).
    destruct Hcp as [-> | ->]; split; reflexivity.
  - intros Hb Hc.
    apply Z.eqb_neq in Hb. apply Z.eqb_neq in Hc. rewrite Hb, Hc.
    reflexivity.
Qed.

Lemma pot_update_witness :
  (get2 (_pot (_step hand_JQ BET)) (current_player hand_JQ)
     = int8 (get2 (_pot hand_JQ) (current_player hand_JQ) + 1) /\
   get2 (_pot (_step hand_JQ BET)) (1 - current_player hand_JQ)
     = get2 (_pot hand_JQ) (1 - current_player hand_JQ)) /\
  _pot (_step hand_JQ CHECK) = _pot hand_JQ.
Proof.
  split.
  - apply (pot_update hand_JQ BET); left; reflexivity.
  - apply (pot_update hand_JQ CHECK);
      [left; reflexivity | discriminate | discriminate].
Defined.

(** ** What [_step] does not read *)

(** X5: [_step] reads neither the termination flag, nor the rewards, nor
    the mask of the state it is given: replacing them changes nothing in
    the state returned.  An action that the mask forbids, or a state that
    is already terminated, is stepped like any other. *)
Theorem step_ignores_flags (s : State) (t : bool) (r : Z * Z)
    (m : list bool) (a : Z) :
  _step (with_flags s t r m) a = _step s a.
Proof.
  unfold _step, _get_unit_reward, cond, TRUE, FALSE.
  cbn [with_flags current_player observation truncated _rng_key
       _step_count _cards _last_action _pot].
  reflexivity.
Qed.

(** ** The unit reward, ties included *)

(** X6: with two different cards the unit reward depends on the cards
    alone, not on whose turn it is: +1 for the seat with the higher card,
    -1 for the other.  With two equal cards the player to move gets -1 and
    the opponent +1. *)
Theorem unit_reward_by_cards (s : State) :
  valid_player (current_player s) ->
  (fst (_cards s) > snd (_cards s) -> _get_unit_reward s = (1, -1)) /\
  (fst (_cards s) < snd (_cards s) -> _get_unit_reward s = (-1, 1)) /\
  (fst (_cards s) = snd (_cards s) ->
   get2 (_get_unit_reward s) (current_player s) = -1 /\
   get2 (_get_unit_reward s) (1 - current_player s) = 1).
Proof.
  intros [E | E];
    [ rewrite (unit_reward_player0 s E) | rewrite (unit_reward_player1 s E) ];
    rewrite E; cmp_cards; repeat split; intros; try reflexivity; lia.
Qed.

Lemma unit_reward_by_cards_witness :
  _get_unit_reward hand_JQ_bet = (-1, 1) /\
  get2 (_get_unit_reward (with_card hand_JQ 1 0)) 0 = -1 /\
  get2 (_get_unit_reward (with_card hand_JQ 1 0)) (1 - 0) = 1.
Proof.
  split.
  - apply (unit_reward_by_cards hand_JQ_bet); [right |]; reflexivity.
  - apply (unit_reward_by_cards (with_card hand_JQ 1 0));
      [left |]; reflexivity.
Defined.

(** ** Action values outside the four actions *)

(** X7: an [int8] action value below 0 or above 3 ends no hand, pays
    nothing and leaves the pot as it is; it is recorded as the last action,
    and the mask returned is the row of Call (nothing legal) for a negative
    value and the row of Check for a value above 3. *)
Theorem action_out_of_range (s : State) (a : Z) :
  -128 <= a <= 127 -> a < 0 \/ 3 < a ->
  terminated (_step s a) = false /\
  rewards (_step s a) = (0, 0) /\
  _pot (_step s a) = _pot s /\
  _last_action (_step s a) = a /\
  legal_action_mask (_step s a) =
    (if a <? 0 then [false; false; false; false]
     else [false; true; false; true]).
Proof.
  intros Hr Ha.
  rewrite step_terminated, step_rewards, step_pot, step_last_action,
    mask_of_action, (int8_small a Hr).
  unfold outcome, CALL, BET, FOLD, CHECK.
  assert (E0 : (a =? 0) = false) by (apply Z.eqb_neq; lia).
  assert (E1 : (a =? 1) = false) by (apply Z.eqb_neq; lia).
  assert (E2 : (a =? 2) = false) by (apply Z.eqb_neq; lia).
  assert (E3 : (a =? 3) = false) by (apply Z.eqb_neq; lia).
  rewrite E0, E1, E2, E3, !andb_false_r.
  repeat split. unfold switch. cbn [length].
  destruct (a <? 0) eqn:L.
  - apply Z.ltb_lt in L.
    replace (Z.max 0 (Z.min (Z.of_nat 4 - 1) a)) with 0 by lia. reflexivity.
  - apply Z.ltb_ge in L.
    replace (Z.max 0 (Z.min (Z.of_nat 4 - 1) a)) with 3 by lia. reflexivity.
Qed.

Lemma action_out_of_range_witness :
  terminated (_step hand_JQ 7) = false /\
  rewards (_step hand_JQ 7) = (0, 0) /\
  _pot (_step hand_JQ 7) = _pot hand_JQ /\
  _last_action (_step hand_JQ 7) = 7 /\
  legal_action_mask (_step hand_JQ 7) =
    (if 7 <? 0 then [false; false; false; false]
     else [false; true; false; true]).
Proof.
  apply (action_out_of_range hand_JQ 7); lia.
Defined.

(** ** Observations of arbitrary states *)







(** X9: on valid states the observation can be decoded: two valid states
    with the same observation for a player agree on that player's card, on
    the player's pot entry and on the opponent's pot entry. *)
Theorem observe_injective (s1 s2 : State) (p : Z) :
  valid_state s1 -> valid_state s2 -> valid_player p ->
  _observe s1 p = _observe s2 p ->
  get2 (_cards s1) p = get2 (_cards s2) p /\
  get2 (_pot s1) p = get2 (_pot s2) p /\
  get2 (_pot s1) (1 - p) = get2 (_pot s2) (1 - p).
Proof.
  intros (Hc0 & Hc1 & Hp0 & Hp1) (Hd0 & Hd1 & Hq0 & Hq1) Hp E.
  assert (V1 : valid_card (get2 (_cards s1) p) /\
               valid_chips (get2 (_pot s1) p) /\
               valid_chips (get2 (_pot s1) (1 - p)))
    by (destruct Hp as [-> | ->]; (split; [| split]); assumption).
  assert (V2 : valid_card (get2 (_cards s2) p) /\
               valid_chips (get2 (_pot s2) p) /\
               valid_chips (get2 (_pot s2) (1 - p)))
    by (destruct Hp as [-> | ->]; (split; [| split]); assumption).
  destruct V1 as (Vc1 & Vo1 & Vp1), V2 as (Vc2 & Vo2 & Vp2).
  destruct (three_slots _ _ _ Vc1 Vo1 Vp1) as (_ & _ & S1).
  destruct (three_slots _ _ _ Vc2 Vo2 Vp2) as (_ & _ & S2).
  cbv zeta in S1, S2.
  change (at_set _ _ true) with (_observe s1 p) in S1.
  change (at_set _ _ true) with (_observe s2 p) in S2.
  rewrite E in S1.
  unfold valid_card, valid_chips in *.
  set (c1 := get2 (_cards s1) p) in *. set (c2 := get2 (_cards s2) p) in *.
  set (o1 := get2 (_pot s1) p) in *. set (o2 := get2 (_pot s2) p) in *.
  set (q1 := get2 (_pot s1) (1 - p)) in *.
  set (q2 := get2 (_pot s2) (1 - p)) in *.
  assert (A1 := proj1 (S2 (Z.to_nat c1))
                  (proj2 (S1 (Z.to_nat c1)) ltac:(left; lia))).
  assert (A2 := proj1 (S2 (Z.to_nat (3 + o1)))
                  (proj2 (S1 (Z.to_nat (3 + o1))) ltac:(right; left; lia))).
  assert (A3 := proj1 (S2 (Z.to_nat (5 + q1)))
                  (proj2 (S1 (Z.to_nat (5 + q1))) ltac:(right; right; lia))).
  clear S1 S2 E. clearbody c1 c2 o1 o2 q1 q2.
  rewrite Z2Nat.id in A1, A2, A3 by lia.
  destruct Vo1 as [-> | ->], Vp1 as [-> | ->],
           Vo2 as [-> | ->], Vp2 as [-> | ->]; lia.
Qed.

Lemma observe_injective_witness :
  get2 (_cards hand_JQ) 0 = get2 (_cards (with_card hand_JQ 1 2)) 0 /\
  get2 (_pot hand_JQ) 0 = get2 (_pot (with_card hand_JQ 1 2)) 0 /\
  get2 (_pot hand_JQ) (1 - 0) = get2 (_pot (with_card hand_JQ 1 2)) (1 - 0).
Proof.
  apply (observe_injective hand_JQ (with_card hand_JQ 1 2) 0).
  - unfold valid_state, valid_card, valid_chips. vm_compute.
    repeat split; try discriminate; auto.
  - unfold valid_state, valid_card, valid_chips. vm_compute.
    repeat split; try discriminate; auto.
  - left. reflexivity.
  - reflexivity.
Defined.

(** ** The course of a hand *)

Lemma step_terminated_bool (s : State) (a : Z) :
  terminated (_step s a) =
    (int8 a =? FOLD) || ((_last_action s =? BET) && (int8 a =? CALL))
    || ((_last_action s =? CHECK) && (int8 a =? CHECK)).
Proof. rewrite step_terminated. apply outcome_terminated. Qed.

(** Which actions each row of the mask permits. *)
Lemma legal_open (s : State) (a : Z) :
  legal_action_mask s = [false; true; false; true] ->
  is_legal s a = true -> a = BET \/ a = CHECK.
Proof.
  intros Hm Hl. pose proof (is_legal_action s a Hl) as Ha.
  unfold is_legal in Hl. rewrite Hm in Hl.
  destruct Ha as [-> | [-> | [-> | ->]]]; try discriminate Hl; auto.
Qed.

Lemma legal_facing (s : State) (a : Z) :
  legal_action_mask s = [true; false; true; false] ->
  is_legal s a = true -> a = CALL \/ a = FOLD.
Proof.
  intros Hm Hl. pose proof (is_legal_action s a Hl) as Ha.
  unfold is_legal in Hl. rewrite Hm in Hl.
  destruct Ha as [-> | [-> | [-> | ->]]]; try discriminate Hl; auto.
Qed.

(** The unit reward is one of two pairs. *)
Lemma unit_reward_cases (s : State) :
  valid_player (current_player s) ->
  _get_unit_reward s = (1, -1) \/ _get_unit_reward s = (-1, 1).
Proof.
  intros [E | E];
    [ rewrite (unit_reward_player0 s E) | rewrite (unit_reward_player1 s E) ];
    cmp_cards; auto.
Qed.

(** A player who answers a bet ends the hand. *)
Lemma answer_terminates (s : State) (a : Z) :
  legal_action_mask s = [true; false; true; false] ->
  _last_action s = BET ->
  is_legal s a = true -> terminated (_step s a) = true.
Proof.
  intros Hm Hb Hl. rewrite step_terminated_bool, Hb.
  destruct (legal_facing s a Hm Hl) as [-> | ->]; reflexivity.
Qed.

Section Hands.

Variable split : KeyArray -> KeyArray * KeyArray.
Variable bernoulli : KeyArray -> bool.
Variable randint : KeyArray -> Z -> Z -> Z.

#[local] Abbreviation init := (_init split bernoulli randint).
#[local] Abbreviation reach := (reachable split bernoulli randint).

Lemma init_opening (rng : KeyArray) :
  legal_action_mask (init rng) = [false; true; false; true] /\
  _last_action (init rng) = -1.
Proof.
  unfold _init. destruct (split rng). split; reflexivity.
Qed.

(** X10: a hand played by the mask lasts two or three actions.  The first
    action never ends it; the second one ends it, except when a Check is
    followed by a Bet, and then an action is available and every action the
    mask permits ends the hand. *)
Theorem hand_length (rng : KeyArray) (a1 a2 : Z) :
  is_legal (init rng) a1 = true ->
  is_legal (_step (init rng) a1) a2 = true ->
  terminated (_step (init rng) a1) = false /\
  (terminated (play (init rng) [a1; a2]) = true \/
   (a1 = CHECK /\ a2 = BET /\
    terminated (play (init rng) [a1; a2]) = false /\
    (exists a3, is_legal (play (init rng) [a1; a2]) a3 = true) /\
    forall a3, is_legal (play (init rng) [a1; a2]) a3 = true ->
               terminated (play (init rng) [a1; a2; a3]) = true)).
Proof.
  intros H1 H2. destruct (init_opening rng) as [Hm Hl].
  unfold play. cbn [fold_left].
  set (s0 := init rng) in *.
  assert (Ht1 : forall a, a = BET \/ a = CHECK ->
                          terminated (_step s0 a) = false).
  { intros a [-> | ->]; rewrite step_terminated_bool, Hl; reflexivity. }
  destruct (legal_open s0 a1 Hm H1) as [-> | ->].
  - split; [apply Ht1; auto |]. left.
    apply answer_terminates; [apply mask_of_action | apply step_last_action |].
    exact H2.
  - split; [apply Ht1; auto |].
    assert (Hm1 : legal_action_mask (_step s0 CHECK)
                  = [false; true; false; true]) by apply mask_of_action.
    destruct (legal_open _ a2 Hm1 H2) as [-> | ->].
    + right. split; [reflexivity | split; [reflexivity |]].
      split; [| split].
      * rewrite step_terminated_bool, step_last_action. reflexivity.
      * exists CALL. unfold is_legal. rewrite mask_of_action. reflexivity.
      * intros a3 H3. apply answer_terminates;
          [apply mask_of_action | apply step_last_action | exact H3].
    + left. rewrite step_terminated_bool, step_last_action. reflexivity.
Qed.

(** X11: when a hand played by the mask ends, the loser loses one chip (the
    ante) plus what the loser has put into the pot, and the winner wins
    that same amount. *)
Theorem loss_is_ante_plus_pot (s : State) (a q : Z) :
  reach s -> is_legal s a = true ->
  terminated (_step s a) = true ->
  valid_player q ->
  get2 (rewards (_step s a)) q < 0 ->
  get2 (rewards (_step s a)) q = - (1 + get2 (_pot (_step s a)) q) /\
  get2 (rewards (_step s a)) (1 - q) = 1 + get2 (_pot (_step s a)) q.
Proof.
  intros Hr Hl Ht Hq.
  destruct (reachable_betting_inv _ _ _ s Hr) as [Hcp [Ho | [Hf | Hc]]].
  - destruct Ho as [Hm Hp].
    destruct (legal_open s a Hm Hl) as [-> | ->].
    + rewrite step_terminated_bool in Ht. change (int8 BET) with BET in Ht.
      change (BET =? FOLD) with false in Ht.
      change (BET =? CALL) with false in Ht.
      change (BET =? CHECK) with false in Ht.
      rewrite !andb_false_r in Ht. discriminate Ht.
    + rewrite step_terminated_bool in Ht.
      change (int8 CHECK) with CHECK in Ht.
      change (CHECK =? FOLD) with false in Ht.
      change (CHECK =? CALL) with false in Ht.
      rewrite andb_false_r in Ht. cbn [orb] in Ht.
      rewrite step_rewards, step_pot, Hp. change (int8 CHECK) with CHECK.
      unfold outcome. rewrite Ht. cbn [snd orb].
      change ((CHECK =? BET) || (CHECK =? CALL)) with false. cbn iota.
      destruct (unit_reward_cases s Hcp) as [-> | ->];
        destruct Hq as [-> | ->]; cbn; lia.
  - destruct Hf as (Hm & Hb & Hp).
    rewrite step_rewards, step_pot.
    destruct (legal_facing s a Hm Hl) as [-> | ->].
    + change (int8 CALL) with CALL. unfold outcome. rewrite Hb.
      cbn [snd]. change ((BET =? CHECK) && (CALL =? CHECK)) with false.
      change ((BET =? BET) && (CALL =? CALL)) with true.
      change ((CALL =? BET) || (CALL =? CALL)) with true. cbn iota.
      destruct (unit_reward_cases s Hcp) as [-> | ->];
        destruct Hp as [[-> ->] | [-> ->]];
        destruct Hq as [-> | ->]; cbn; lia.
    + change (int8 FOLD) with FOLD. rewrite fold_outcome.
      change ((FOLD =? BET) || (FOLD =? CALL)) with false. cbn iota.
      destruct Hp as [[-> ->] | [-> ->]];
        destruct Hq as [-> | ->]; cbn; lia.
  - rewrite (closed_round_stuck s a Hc) in Hl. discriminate Hl.
Qed.

(** X12: in a state reached by play that respects the mask, Bet and Check
    are offered only while the pot is empty, and Call and Fold only to a
    player who has put in nothing and faces one chip of the opponent. *)
Theorem mask_tells_pot (s : State) :
  reach s ->
  (is_legal s BET = true \/ is_legal s CHECK = true -> _pot s = (0, 0)) /\
  (is_legal s CALL = true \/ is_legal s FOLD = true ->
   get2 (_pot s) (current_player s) = 0 /\
   get2 (_pot s) (1 - current_player s) = 1).
Proof.
  intros Hr.
  destruct (reachable_betting_inv _ _ _ s Hr)
    as [Hcp [[Hm Hp] | [(Hm & Hb & Hp) | [Hm _]]]];
    split; intros Hl; unfold is_legal in Hl; rewrite Hm in Hl;
    try (destruct Hl as [Hl | Hl]; discriminate Hl).
  - exact Hp.
  - destruct Hp as [[-> ->] | [-> ->]]; split; reflexivity.
Qed.

(** X13: play that respects the mask can run past the end of a hand: after
    Check, Check the state is terminated, its mask still offers Bet, and
    that Bet returns a state that is not terminated. *)
Theorem play_past_showdown (rng : KeyArray) :
  reach (play (init rng) [CHECK; CHECK]) /\
  terminated (play (init rng) [CHECK; CHECK]) = true /\
  is_legal (play (init rng) [CHECK; CHECK]) BET = true /\
  reach (play (init rng) [CHECK; CHECK; BET]) /\
  terminated (play (init rng) [CHECK; CHECK; BET]) = false.
Proof.
  destruct (init_opening rng) as [Hm Hl].
  unfold play. cbn [fold_left].
  assert (L0 : is_legal (init rng) CHECK = true)
    by (unfold is_legal; rewrite Hm; reflexivity).
  assert (L : forall s, is_legal (_step s CHECK) CHECK = true /\
                        is_legal (_step s CHECK) BET = true)
    by (intros s; unfold is_legal; rewrite mask_of_action; split; reflexivity).
  assert (R1 : reach (_step (init rng) CHECK))
    by (apply reach_step; [apply reach_init | exact L0]).
  assert (R2 : reach (_step (_step (init rng) CHECK) CHECK))
    by (apply reach_step; [exact R1 | apply L]).
  split; [exact R2 |]. split; [| split; [apply L | split]].
  - rewrite step_terminated_bool, step_last_action. reflexivity.
  - apply reach_step; [exact R2 | apply L].
  - rewrite step_terminated_bool. change (int8 BET) with BET.
    change (BET =? FOLD) with false. change (BET =? CALL) with false.
    change (BET =? CHECK) with false. rewrite !andb_false_r. reflexivity.
Qed.

End Hands.

Lemma hand_JQ_reachable : reachable split0 bernoulli0 randint0 hand_JQ.
Proof. exact (reach_init split0 bernoulli0 randint0 _ PRNGKey0). Qed.

Lemma hand_length_witness :
  terminated (_step hand_JQ CHECK) = false /\
  (terminated (play hand_JQ [CHECK; BET]) = true \/
   (CHECK = CHECK /\ BET = BET /\
    terminated (play hand_JQ [CHECK; BET]) = false /\
    (exists a3, is_legal (play hand_JQ [CHECK; BET]) a3 = true) /\
    forall a3, is_legal (play hand_JQ [CHECK; BET]) a3 = true ->
               terminated (play hand_JQ [CHECK; BET; a3]) = true)).
Proof.
  apply (hand_length split0 bernoulli0 randint0 PRNGKey0 CHECK BET);
    reflexivity.
Defined.

Lemma loss_is_ante_plus_pot_witness :
  get2 (rewards (_step hand_JQ_bet CALL)) 0
    = - (1 + get2 (_pot (_step hand_JQ_bet CALL)) 0) /\
  get2 (rewards (_step hand_JQ_bet CALL)) (1 - 0)
    = 1 + get2 (_pot (_step hand_JQ_bet CALL)) 0.
Proof.
  apply (loss_is_ante_plus_pot split0 bernoulli0 randint0 hand_JQ_bet CALL 0).
  - exact hand_JQ_bet_reachable.
  - reflexivity.
  - reflexivity.
  - left. reflexivity.
  - reflexivity.
Defined.

Lemma mask_tells_pot_witness :
  _pot hand_JQ = (0, 0) /\
  get2 (_pot hand_JQ_bet) (current_player hand_JQ_bet) = 0 /\
  get2 (_pot hand_JQ_bet) (1 - current_player hand_JQ_bet) = 1.
Proof.
  split.
  - apply (mask_tells_pot split0 bernoulli0 randint0 hand_JQ
             hand_JQ_reachable).
    left. reflexivity.
  - apply (mask_tells_pot split0 bernoulli0 randint0 hand_JQ_bet
             hand_JQ_bet_reachable).
    left. reflexivity.
Defined.

(** ** The deals that [_init] can produce *)

Lemma randint_at_range (k : Z) (key : KeyArray) (lo hi : Z) :
  lo < hi -> lo <= randint_at k key lo hi < hi.
Proof.
  intros H. unfold randint_at.
  pose proof (Z.mod_pos_bound k (hi - lo) ltac:(lia)). lia.
Qed.

Lemma init_at (split : KeyArray -> KeyArray * KeyArray) (b : bool)
    (k : Z) (rng : KeyArray) :
  _cards (_init split (bernoulli_at b) (randint_at k) rng)
    = nth (Z.to_nat (k mod 6)) deals (-1, -1) /\
  current_player (_init split (bernoulli_at b) (randint_at k) rng)
    = Z.b2z b.
Proof.
  unfold _init. destruct (split rng) as [rng1 rng2]. split.
  - reflexivity.
  - cbn [current_player]. unfold bernoulli_at. destruct b; reflexivity.
Qed.

(** X14: every ordered pair of two different ranks, with either player to
    move first, is dealt by [_init] for some random source whose draws stay
    in range; together with the range of the cards of [_init] this makes
    the table of deals complete. *)
Theorem every_deal_possible (c0 c1 : Z) (b : bool) :
  valid_card c0 -> valid_card c1 -> c0 <> c1 ->
  In (c0, c1) deals /\
  exists k,
    (forall key lo hi, lo < hi -> lo <= randint_at k key lo hi < hi) /\
    forall split rng,
      _cards (_init split (bernoulli_at b) (randint_at k) rng) = (c0, c1) /\
      current_player (_init split (bernoulli_at b) (randint_at k) rng)
        = Z.b2z b.
Proof.
  unfold valid_card. intros H0 H1 Hd.
  assert (E0 : c0 = 0 \/ c0 = 1 \/ c0 = 2) by lia.
  assert (E1 : c1 = 0 \/ c1 = 1 \/ c1 = 2) by lia.
  clear H0 H1.
  assert (K : exists k, nth (Z.to_nat (k mod 6)) deals (-1, -1) = (c0, c1)).
  { destruct E0 as [-> | [-> | ->]], E1 as [-> | [-> | ->]];
      try (exfalso; apply Hd; reflexivity);
      [ exists 0 | exists 1 | exists 2 | exists 3 | exists 4 | exists 5 ];
      reflexivity. }
  split.
  - destruct E0 as [-> | [-> | ->]], E1 as [-> | [-> | ->]];
      try (exfalso; apply Hd; reflexivity); cbn; tauto.
  - destruct K as [k Hk]. exists k. split.
    + intros key lo hi. apply randint_at_range.
    + intros split rng. rewrite <- Hk. apply init_at.
Qed.

Lemma every_deal_possible_witness :
  In (2, 0) deals /\
  exists k,
    (forall key lo hi, lo < hi -> lo <= randint_at k key lo hi < hi) /\
    forall split rng,
      _cards (_init split (bernoulli_at true) (randint_at k) rng) = (2, 0) /\
      current_player (_init split (bernoulli_at true) (randint_at k) rng)
        = Z.b2z true.
Proof.
  apply (every_deal_possible 2 0 true); unfold valid_card; lia.
Defined.

(** ** The two views of the pot *)

(** X15: the two players see the same pot from opposite sides: the slot
    that shows [x] chips of the player's own in one player's observation is
    set exactly when the slot that shows [x] chips of the opponent is set in
    the other player's observation. *)
Theorem pot_views_agree (s : State) (p x : Z) :
  valid_state s -> valid_player p -> valid_chips x ->
  nth (Z.to_nat (3 + x)) (_observe s p) false
    = nth (Z.to_nat (5 + x)) (_observe s (1 - p)) false.
Proof.
  unfold valid_state, valid_card, valid_chips, _observe.
  destruct (_cards s) as [c0 c1], (_pot s) as [p0 p1]. cbn [fst snd].
  intros (Hc0 & Hc1 & Hp0 & Hp1) Hp Hx.
  assert (E0 : c0 = 0 \/ c0 = 1 \/ c0 = 2) by lia.
  assert (E1 : c1 = 0 \/ c1 = 1 \/ c1 = 2) by lia.
  clear Hc0 Hc1.
  destruct Hp as [-> | ->], Hx as [-> | ->],
           E0 as [-> | [-> | ->]], E1 as [-> | [-> | ->]],
           Hp0 as [-> | ->], Hp1 as [-> | ->]; reflexivity.
Qed.

Lemma pot_views_agree_witness :
  nth (Z.to_nat (3 + 1)) (_observe hand_JQ_bet 0) false
    = nth (Z.to_nat (5 + 1)) (_observe hand_JQ_bet (1 - 0)) false.
Proof.
  apply (pot_views_agree hand_JQ_bet 0 1).
  - unfold valid_state, valid_card, valid_chips. vm_compute.
    repeat split; try discriminate; auto.
  - left. reflexivity.
  - right. reflexivity.
Defined.
